(** * Antigravityzilla: the monitor server (src/server.js)

    A shallow embedding of the protocol client (connectCDP, call, the
    context tracker), of the metadata and snapshot capture paths, of the
    discovery cycle and of the snapshot poller, and the properties the
    specification states about them. *)

From Stdlib Require Import ZArith List String Ascii Bool Lia.
Import ListNotations.
Local Open Scope string_scope.
Local Open Scope list_scope.
Local Open Scope Z_scope.
Set Warnings "-register-all".

(** ** JavaScript strings and hashString *)

(** A JavaScript string is a sequence of UTF-16 code units; str.charCodeAt(i)
    is the i-th one. *)
Definition JSString := list Z.

(** The code units of an ASCII literal of the source. *)
Definition units (s : string) : JSString :=
  map (fun a => Z.of_nat (nat_of_ascii a)) (list_ascii_of_string s).

Fixpoint js_eqb (a b : JSString) : bool :=
  match a, b with
  | [], [] => true
  | x :: a', y :: b' => Z.eqb x y && js_eqb a' b'
  | _, _ => false
  end.

(** ToInt32: the value a bitwise operator of JavaScript sees and returns. *)
Definition toInt32 (z : Z) : Z := (z + 2 ^ 31) mod 2 ^ 32 - 2 ^ 31.

(** One round of the loop of hashString:
    hash = ((hash << 5) - hash) + char; hash = hash & hash. *)
Definition hashStep (hash char : Z) : Z :=
  let hash := (toInt32 (Z.shiftl (toInt32 hash) 5) - hash) + char in
  toInt32 (Z.land hash hash).

Definition digit36 (d : Z) : ascii :=
  match List.nth_error (list_ascii_of_string "0123456789abcdefghijklmnopqrstuvwxyz")
                       (Z.to_nat d) with
  | Some c => c
  | None => "?"%char
  end.

(** The digits of a non-negative number in base 36, most significant first;
    seven digits cover every 32-bit value, the fuel is one per digit. *)
Fixpoint digits36 (fuel : nat) (n : Z) (acc : string) : string :=
  match fuel with
  | O => acc
  | S fuel' =>
      let acc' := String (digit36 (n mod 36)) acc in
      if n <? 36 then acc' else digits36 fuel' (n / 36) acc'
  end.

(** Number.prototype.toString(36) on a 32-bit integer. *)
Definition toString36 (n : Z) : string :=
  if n <? 0 then String "-"%char (digits36 8 (- n) EmptyString)
  else digits36 8 n EmptyString.

Definition hashString (str : JSString) : string :=
  toString36 (fold_left hashStep str 0).

(** ** JSON values *)

(** What JSON.parse produces. Numbers are the integers; property access on a
    missing key gives undefined, which is [None] below. *)
Inductive Json : Type :=
| JNull
| JBool (b : bool)
| JNum (n : Z)
| JStr (s : JSString)
| JArr (items : list Json)
| JObj (fields : list (string * Json)).

Definition Obj := list (string * Json).

Fixpoint obj_get (k : string) (o : Obj) : option Json :=
  match o with
  | [] => None
  | (k', v) :: o' => if String.eqb k k' then Some v else obj_get k o'
  end.

(** o[k] = v: an existing key keeps its place, a new one is added last. *)
Fixpoint obj_set (k : string) (v : Json) (o : Obj) : Obj :=
  match o with
  | [] => [(k, v)]
  | (k', v') :: o' =>
      if String.eqb k k' then (k, v) :: o' else (k', v') :: obj_set k v o'
  end.

(** A property whose value is undefined is left out of the object: it reads
    back as undefined and JSON.stringify omits it. *)
Definition obj_set_opt (k : string) (v : option Json) (o : Obj) : Obj :=
  match v with
  | Some v => obj_set k v o
  | None => o
  end.

(** { ...a, ...b } *)
Definition spread (a b : Obj) : Obj :=
  fold_left (fun acc kv => obj_set (fst kv) (snd kv) acc) b a.

(** v.k, and v?.k, on a value that is not null or undefined. *)
Definition prop (k : string) (v : Json) : option Json :=
  match v with
  | JObj o => obj_get k o
  | _ => None
  end.

(** v?.k on a value that may be undefined or null. *)
Definition prop_opt (k : string) (v : option Json) : option Json :=
  match v with
  | Some v => prop k v
  | None => None
  end.

Definition truthy (v : option Json) : bool :=
  match v with
  | None => false
  | Some JNull => false
  | Some (JBool b) => b
  | Some (JNum n) => negb (n =? 0)
  | Some (JStr s) => match s with [] => false | _ => true end
  | Some (JArr _) => true
  | Some (JObj _) => true
  end.

(** ** The Transport Session: the socket of connectCDP, call and the context tracker *)

Inductive ReadyState : Type := CONNECTING | OPEN | CLOSING | CLOSED.

Definition isOpen (r : ReadyState) : bool :=
  match r with OPEN => true | _ => false end.

(** A context descriptor of the remote process: its id and the rest of the
    record, which the server never reads. *)
Record ExecutionContext : Type := mkContext { ctx_id : Z; ctx_aux : Json }.

(** The expressions the server sends for evaluation; their texts are opaque
    to the protocol client. *)
Inductive Script : Type :=
| METADATA_SCRIPT
| CSS_SCRIPT
| HTML_SCRIPT
| INJECT_SCRIPT (text : JSString).

Inductive Params : Type :=
| EmptyParams
| EvaluateParams (expression : Script) (contextId : option Z)
| OtherParams (p : Json).

(** The outbound frame { id, method, params }. *)
Record Request : Type := mkRequest { rq_id : Z; rq_method : string; rq_params : Params }.

(** The inbound frame after JSON.parse, in the shapes the protocol defines:
    a reply carries id and result or error, a notification carries method and
    params. The handlers read the fields independently, so a frame holds each
    of them or not. A 'Runtime.executionContextCreated' notification carries
    its context descriptor and a 'Runtime.executionContextDestroyed' one its
    executionContextId, both with numeric ids. *)
Inductive Notification : Type :=
| executionContextCreated (context : ExecutionContext)
| executionContextDestroyed (executionContextId : Z)
| otherNotification (method : string).

Record Data : Type := mkData {
  d_id : option Z;
  d_result : option Json;
  d_error : option Json;
  d_method : option Notification
}.

(** The 'message' listeners of the socket: the context tracker that
    connectCDP registers, and one handler per call that is still waiting. *)
Inductive Listener : Type :=
| ContextTracker
| CallHandler (id : Z).

(** How the promise of a call ended: resolve(data.result) or
    reject(data.error). *)
Inductive Settlement : Type :=
| Resolved (result : option Json)
| Rejected (error : Json).

(** The socket of one connectCDP with the state its closures share: the
    address, the socket's state, the id counter, the 'message' listeners in
    registration order, the contexts array and the remembered context id of
    the returned object. [outbox] lists the frames written so far and
    [settled] the calls whose promise has been settled, with the outcome. *)
Record Session : Type := mkSession {
  url : JSString;
  readyState : ReadyState;
  idCounter : Z;
  listeners : list Listener;
  contexts : list ExecutionContext;
  rootContextId : option Z;
  outbox : list Request;
  settled : list (Z * Settlement)
}.

Definition set_readyState (r : ReadyState) (s : Session) : Session :=
  mkSession (url s) r (idCounter s) (listeners s) (contexts s) (rootContextId s)
            (outbox s) (settled s).

Definition set_listeners (l : list Listener) (s : Session) : Session :=
  mkSession (url s) (readyState s) (idCounter s) l (contexts s) (rootContextId s)
            (outbox s) (settled s).

Definition set_contexts (c : list ExecutionContext) (s : Session) : Session :=
  mkSession (url s) (readyState s) (idCounter s) (listeners s) c (rootContextId s)
            (outbox s) (settled s).

Definition set_rootContextId (r : option Z) (s : Session) : Session :=
  mkSession (url s) (readyState s) (idCounter s) (listeners s) (contexts s) r
            (outbox s) (settled s).

Definition set_settled (st : list (Z * Settlement)) (s : Session) : Session :=
  mkSession (url s) (readyState s) (idCounter s) (listeners s) (contexts s)
            (rootContextId s) (outbox s) st.

(** The session once the socket is open and connectCDP has registered the
    context tracker, before its first call. *)
Definition opened (u : JSString) : Session :=
  mkSession u OPEN 1 [ContextTracker] [] None [] [].

(** The synchronous part of call(method, params): take the next id, register
    the handler, write the frame. ws.send on a socket that is no longer open
    writes nothing and, given no callback, reports nothing; the handler is
    registered either way. *)
Definition call_send (method : string) (params : Params) (s : Session) : Session :=
  let id := idCounter s in
  mkSession (url s) (readyState s) (id + 1)
            (listeners s ++ [CallHandler id])
            (contexts s) (rootContextId s)
            (if isOpen (readyState s)
             then outbox s ++ [mkRequest id method params]
             else outbox s)
            (settled s).

(** A promise is settled once: a later resolve or reject does nothing. *)
Definition settlement (id : Z) (st : list (Z * Settlement)) : option Settlement :=
  option_map snd (find (fun p => Z.eqb (fst p) id) st).

Definition settle (id : Z) (o : Settlement) (st : list (Z * Settlement))
  : list (Z * Settlement) :=
  match settlement id st with
  | Some _ => st
  | None => st ++ [(id, o)]
  end.

(** if (data.error) reject(data.error); else resolve(data.result); *)
Definition outcome_of (data : Data) : Settlement :=
  match d_error data with
  | Some e => if truthy (Some e) then Rejected e else Resolved (d_result data)
  | None => Resolved (d_result data)
  end.

Definition listener_eqb (a b : Listener) : bool :=
  match a, b with
  | ContextTracker, ContextTracker => true
  | CallHandler i, CallHandler j => Z.eqb i j
  | _, _ => false
  end.

(** ws.off('message', handler) *)
Fixpoint off (h : Listener) (l : list Listener) : list Listener :=
  match l with
  | [] => []
  | x :: l' => if listener_eqb h x then l' else x :: off h l'
  end.

(** Array.prototype.findIndex, [None] for -1. *)
Fixpoint findIndex {A : Type} (p : A -> bool) (l : list A) : option nat :=
  match l with
  | [] => None
  | x :: l' => if p x then Some O else option_map S (findIndex p l')
  end.

(** contexts.splice(idx, 1) *)
Definition splice1 {A : Type} (idx : nat) (l : list A) : list A :=
  firstn idx l ++ skipn (S idx) l.

(** The body of the context tracker on the contexts array. *)
Definition trackContexts (n : option Notification) (cs : list ExecutionContext)
  : list ExecutionContext :=
  match n with
  | Some (executionContextCreated c) => cs ++ [c]
  | Some (executionContextDestroyed x) =>
      match findIndex (fun c => Z.eqb (ctx_id c) x) cs with
      | Some idx => splice1 idx cs
      | None => cs
      end
  | _ => cs
  end.

Definition id_matches (data : Data) (id : Z) : bool :=
  match d_id data with
  | Some i => Z.eqb i id
  | None => false
  end.

(** One listener run on one frame. *)
Definition run_listener (data : Data) (l : Listener) (s : Session) : Session :=
  match l with
  | ContextTracker => set_contexts (trackContexts (d_method data) (contexts s)) s
  | CallHandler id =>
      if id_matches data id
      then set_settled (settle id (outcome_of data) (settled s))
                       (set_listeners (off (CallHandler id) (listeners s)) s)
      else s
  end.

(** The 'message' event: every listener registered when the frame arrives is
    run on it, in registration order. *)
Definition emit_message (data : Data) (s : Session) : Session :=
  fold_left (fun s l => run_listener data l s) (listeners s) s.

(** What can happen to a session between two steps of the server: a frame
    arrives, the connection terminates, time passes. connectCDP registers no
    'close' listener and call arms no timer, so the last two run no code of
    the session. *)
Inductive Event : Type :=
| Message (data : Data)
| Close
| Elapse (ms : Z).

Definition step (e : Event) (s : Session) : Session :=
  match e with
  | Message data => emit_message data s
  | Close => set_readyState CLOSED s
  | Elapse _ => s
  end.

Definition run (evs : list Event) (s : Session) : Session :=
  fold_left (fun s e => step e s) evs s.

(** The call with this id is still waiting for its reply. *)
Definition pending (id : Z) (s : Session) : Prop :=
  In (CallHandler id) (listeners s) /\ settlement id (settled s) = None.

Definition is_reply_to (id : Z) (e : Event) : bool :=
  match e with
  | Message data => id_matches data id
  | _ => false
  end.

(** The sessions the server can be in. *)
Inductive reachable : Session -> Prop :=
| reach_opened u : reachable (opened u)
| reach_call s method params : reachable s -> reachable (call_send method params s)
| reach_step s e : reachable s -> reachable (step e s)
| reach_state s r : reachable s -> reachable (set_readyState r s)
| reach_root s r : reachable s -> reachable (set_rootContextId r s).

(** The shape every reachable session keeps: the tracker first, then the
    handlers of the waiting calls, whose ids are distinct, below the counter
    and not yet settled; settled ids are below the counter too. *)
Definition wf (s : Session) : Prop :=
  (exists ids,
      listeners s = ContextTracker :: map CallHandler ids /\
      NoDup ids /\
      forall i, In i ids -> i < idCounter s /\ settlement i (settled s) = None) /\
  (forall i, settlement i (settled s) <> None -> i < idCounter s).

Fixpoint remove1 (i : Z) (ids : list Z) : list Z :=
  match ids with
  | [] => []
  | j :: ids' => if Z.eqb i j then ids' else j :: remove1 i ids'
  end.

(** The time that passes over a list of events. *)
Definition elapsed (evs : list Event) : Z :=
  fold_right (fun e t => match e with Elapse ms => ms + t | _ => t end) 0 evs.

Definition no_reply_to (id : Z) (evs : list Event) : bool :=
  forallb (fun e => negb (is_reply_to id e)) evs.

(** The bounded wait the specification asks of call: once [bound]
    milliseconds have passed without a reply bearing the id, the handler is
    gone and the caller has been rejected. *)
Definition bounded_wait (bound : Z) : Prop :=
  forall s id evs,
    reachable s -> pending id s -> no_reply_to id evs = true ->
    bound <= elapsed evs ->
    ~ In (CallHandler id) (listeners (run evs s)) /\
    exists e, settlement id (settled (run evs s)) = Some (Rejected e).

(** The failure on termination the specification asks of a session: after
    the connection terminates no call is left waiting, each one that waited
    has been rejected. *)
Definition fails_pending_on_close : Prop :=
  forall s id,
    reachable s -> pending id s ->
    ~ In (CallHandler id) (listeners (step Close s)) /\
    exists e, settlement id (settled (step Close s)) = Some (Rejected e).

(** ** Async functions as state transformers *)

Inductive Exn : Type :=
| TypeError
| RemoteError (error : Json)
| ConnectError.

(** How a run of an async function ends: it returns, it throws (its promise
    is rejected), or it never gets past an await. [OutOfFuel] is the model's
    own: the bound given to a loop over a live array ran out. *)
Inductive Outcome (A : Type) : Type :=
| Ok (a : A)
| Throw (e : Exn)
| Stuck
| OutOfFuel.

Arguments Ok {A} a.
Arguments Throw {A} e.
Arguments Stuck {A}.
Arguments OutOfFuel {A}.

Definition M (St A : Type) : Type := St -> Outcome A * St.

Definition ret {St A} (a : A) : M St A := fun st => (Ok a, st).

Definition throw {St A} (e : Exn) : M St A := fun st => (Throw e, st).

Definition bind {St A B} (m : M St A) (k : A -> M St B) : M St B :=
  fun st =>
    match m st with
    | (Ok a, st') => k a st'
    | (Throw e, st') => (Throw e, st')
    | (Stuck, st') => (Stuck, st')
    | (OutOfFuel, st') => (OutOfFuel, st')
    end.

(** try { m } catch (e) { handler e } *)
Definition try_catch {St A} (m : M St A) (handler : Exn -> M St A) : M St A :=
  fun st =>
    match m st with
    | (Throw e, st') => handler e st'
    | r => r
    end.

Declare Scope async_scope.
Delimit Scope async_scope with async.
Notation "x <- m ;; k" := (bind m (fun x => k))
  (at level 61, m at next level, right associativity) : async_scope.
Notation "m ;;; k" := (bind m (fun _ => k))
  (at level 61, right associativity) : async_scope.
Local Open Scope async_scope.

(** The socket objects of the process, by handle, in order of creation. *)
Definition Heap := list Session.

Fixpoint set_nth {A : Type} (n : nat) (x : A) (l : list A) : list A :=
  match l, n with
  | [], _ => []
  | _ :: l', O => x :: l'
  | y :: l', S n' => y :: set_nth n' x l'
  end.

Definition get_session (h : nat) : M Heap Session :=
  fun hp =>
    match nth_error hp h with
    | Some s => (Ok s, hp)
    | None => (Throw TypeError, hp)
    end.

Definition modify_session (h : nat) (f : Session -> Session) : M Heap unit :=
  fun hp =>
    match nth_error hp h with
    | Some s => (Ok tt, set_nth h (f s) hp)
    | None => (Throw TypeError, hp)
    end.

(** ws.close(): the socket starts closing, unless it is closed already. *)
Definition ws_close (s : Session) : Session :=
  match readyState s with
  | CLOSED => s
  | _ => set_readyState CLOSING s
  end.

(** ** The remote side *)

(** What the GET of a listener's /json/list ends in: the request fails, the
    socket stays idle for 2000 ms, or the response ends with a body, which
    JSON.parse accepts ([Some]) or rejects ([None]). *)
Inductive HttpOutcome : Type :=
| NetworkError
| RequestTimeout
| Body (parsed : option Json).

(** Everything outside the process that a run depends on. *)
Record Env : Type := mkEnv {
  (** the listener on 127.0.0.1:port *)
  http : Z -> HttpOutcome;
  (** whether a socket to this address opens ('open') or fails ('error') *)
  handshake : JSString -> bool;
  (** the frames that arrive on the socket with this handle after this frame
      was written to it, in order, while the caller waits *)
  respond : nat -> Request -> list Data;
  (** the frames that arrive during the 500 ms connectCDP waits after
      Runtime.enable *)
  settle_frames : nat -> list Data;
  (** getMostRecentBrainDir() *)
  mostRecentBrainDir : option JSString
}.

Section Server.

Variable env : Env.

(** Frames are delivered one at a time; the caller resumes as soon as its
    promise is settled, so what the remote sends later is not seen here. *)
Fixpoint deliver (id : Z) (frames : list Data) (s : Session) : Session :=
  match frames with
  | [] => s
  | data :: rest =>
      let s' := emit_message data s in
      match settlement id (settled s') with
      | Some _ => s'
      | None => deliver id rest s'
      end
  end.

(** await cdp.call(method, params) *)
Definition call (h : nat) (method : string) (params : Params) : M Heap (option Json) :=
  fun hp =>
    match nth_error hp h with
    | None => (Throw TypeError, hp)
    | Some s =>
        let id := idCounter s in
        let frames :=
          if isOpen (readyState s) then respond env h (mkRequest id method params) else [] in
        let s' := deliver id frames (call_send method params s) in
        let hp' := set_nth h s' hp in
        match settlement id (settled s') with
        | Some (Resolved result) => (Ok result, hp')
        | Some (Rejected error) => (Throw (RemoteError error), hp')
        | None => (Stuck, hp')
        end
    end.

(** A socket whose handshake failed. *)
Definition failed (u : JSString) : Session :=
  mkSession u CLOSED 1 [] [] None [] [].

(** connectCDP(url): the handle of the new socket stands for the returned
    { ws, call, contexts, rootContextId: null }. *)
Definition connectCDP (address : option Json) : M Heap nat :=
  match address with
  | Some (JStr u) =>
      fun hp =>
        let h := List.length hp in
        if handshake env u
        then (_ <- call h "Runtime.enable" EmptyParams ;;
              _ <- modify_session h (fun s => fold_left (fun s d => emit_message d s)
                                                        (settle_frames env h) s) ;;
              ret h) (hp ++ [opened u])
        else (Throw ConnectError, hp ++ [failed u])
  | _ => throw TypeError
  end.

(** v.k where v must not be undefined or null. *)
Definition member {St} (k : string) (v : option Json) : M St (option Json) :=
  match v with
  | None | Some JNull => throw TypeError
  | Some v => ret (prop k v)
  end.

(** res.result?.value when its found property is truthy. *)
Definition found_value (result : option Json) : option Obj :=
  match prop_opt "value" result with
  | Some (JObj v) => if truthy (obj_get "found" v) then Some v else None
  | _ => None
  end.

Definition json_of_contextId (r : option Z) : Json :=
  match r with
  | Some n => JNum n
  | None => JNull
  end.

(** if (cdp.rootContextId): a remembered id that is not 0. *)
Definition remembered (r : option Z) : option Z :=
  match r with
  | Some n => if n =? 0 then None else Some n
  | None => None
  end.

(** const res = await cdp.call("Runtime.evaluate", { expression, returnByValue:
    true, contextId }) and the read of res.result that every caller starts
    with. *)
Definition evaluate (h : nat) (script : Script) (contextId : option Z)
  : M Heap (option Json) :=
  res <- call h "Runtime.evaluate" (EvaluateParams script contextId) ;;
  member "result" res.

(** The first half of extractMetadata: the evaluation against the remembered
    context. [Some meta] is its early return; [None] falls through to the
    search. *)
Definition directPath (h : nat) : M Heap (option Obj) :=
  s <- get_session h ;;
  match remembered (rootContextId s) with
  | Some r =>
      try_catch
        (result <- evaluate h METADATA_SCRIPT (Some r) ;;
         match found_value result with
         | Some v =>
             s' <- get_session h ;;
             ret (Some (obj_set "contextId" (json_of_contextId (rootContextId s')) v))
         | None => ret None
         end)
        (fun _ => _ <- modify_session h (set_rootContextId None) ;; ret None)
  | None => ret None
  end.

(** The second half: for (const ctx of cdp.contexts), from index i on. The
    array is read again at every round, as the iterator does; fuel bounds the
    number of rounds. *)
Fixpoint searchContexts (fuel : nat) (h : nat) (i : nat) : M Heap (option Obj) :=
  match fuel with
  | O => fun hp => (OutOfFuel, hp)
  | S fuel' =>
      s <- get_session h ;;
      match nth_error (contexts s) i with
      | None => ret None
      | Some ctx =>
          hit <- try_catch
                   (result <- evaluate h METADATA_SCRIPT (Some (ctx_id ctx)) ;;
                    match found_value result with
                    | Some v => ret (Some (obj_set "contextId" (JNum (ctx_id ctx)) v))
                    | None => ret None
                    end)
                   (fun _ => ret None) ;;
          match hit with
          | Some meta => ret (Some meta)
          | None => searchContexts fuel' h (S i)
          end
      end
  end.

Definition extractMetadata (fuel : nat) (h : nat) : M Heap (option Obj) :=
  direct <- directPath h ;;
  match direct with
  | Some meta => ret (Some meta)
  | None => searchContexts fuel h O
  end.

(** a || b on values *)
Definition js_or (a b : option Json) : option Json :=
  if truthy a then a else b.

(** captureCSS: null without a remembered context, '' when the evaluation
    fails. *)
Definition captureCSS (h : nat) : M Heap (option Json) :=
  s <- get_session h ;;
  match remembered (rootContextId s) with
  | None => ret None
  | Some r =>
      try_catch
        (result <- evaluate h CSS_SCRIPT (Some r) ;;
         ret (js_or (prop_opt "css" (prop_opt "value" result)) (Some (JStr []))))
        (fun _ => ret (Some (JStr [])))
  end.

(** captureHTML: the value of the evaluation when it is truthy and carries no
    truthy error, null otherwise. *)
Definition captureHTML (h : nat) : M Heap (option Json) :=
  s <- get_session h ;;
  match remembered (rootContextId s) with
  | None => ret None
  | Some r =>
      try_catch
        (result <- evaluate h HTML_SCRIPT (Some r) ;;
         let value := prop_opt "value" result in
         if truthy value && negb (truthy (prop_opt "error" value))
         then ret value
         else ret None)
        (fun _ => ret None)
  end.

End Server.

(** ** The registry and the process state *)

(** One entry of the cascades map. [cdp] is the handle of its socket. *)
Record Cascade : Type := mkCascade {
  id : string;
  cdp : nat;
  metadata : Obj;
  snapshot : option Json;
  css : option Json;
  snapshotHash : option string
}.

(** A JavaScript Map from identity to entry: insertion order, one entry per
    key. *)
Definition Registry := list (string * Cascade).

Fixpoint map_get (k : string) (m : Registry) : option Cascade :=
  match m with
  | [] => None
  | (k', c) :: m' => if String.eqb k k' then Some c else map_get k m'
  end.

Definition map_has (k : string) (m : Registry) : bool :=
  match map_get k m with Some _ => true | None => false end.

Fixpoint map_set (k : string) (c : Cascade) (m : Registry) : Registry :=
  match m with
  | [] => [(k, c)]
  | (k', c') :: m' =>
      if String.eqb k k' then (k, c) :: m' else (k', c') :: map_set k c m'
  end.

Definition size (m : Registry) : nat := List.length m.

(** The state of the process: its sockets, the module-level cascades map,
    and every message handed to broadcast(), oldest first. *)
Record World : Type := mkWorld {
  sockets : Heap;
  cascades : Registry;
  broadcasts : list Json
}.

(** A function of the protocol client run inside the process: it touches the
    sockets only. *)
Definition lift {A} (m : M Heap A) : M World A :=
  fun w =>
    let (o, hp) := m (sockets w) in
    (o, mkWorld hp (cascades w) (broadcasts w)).

Definition get_cascades : M World Registry := fun w => (Ok (cascades w), w).

Definition put_cascades (m : Registry) : M World unit :=
  fun w => (Ok tt, mkWorld (sockets w) m (broadcasts w)).

(** broadcast(msg), once main has created the subscriber server. *)
Definition broadcast (msg : Json) : M World unit :=
  fun w => (Ok tt, mkWorld (sockets w) (cascades w) (broadcasts w ++ [msg])).

(** hashString(v) on a value read from JSON. A string is hashed; undefined
    and null make str.length throw ([None]). A value without a positive
    length hashes to "0", the loop never running; one with a positive length
    that is not a string has no charCodeAt and throws. An object whose own
    length property is a non-empty string or array is outside the model and
    taken as throwing. *)
Definition js_hashString (v : option Json) : option string :=
  match v with
  | None | Some JNull => None
  | Some (JStr s) => Some (hashString s)
  | Some (JNum _) | Some (JBool _) => Some "0"
  | Some (JArr []) => Some "0"
  | Some (JArr (_ :: _)) => None
  | Some (JObj o) =>
      match obj_get "length" o with
      | None | Some JNull | Some (JBool false) | Some (JStr []) | Some (JArr [])
      | Some (JObj _) => Some "0"
      | Some (JNum n) => if 0 <? n then None else Some "0"
      | Some (JBool true) => None
      | Some (JStr (_ :: _)) | Some (JArr (_ :: _)) => None
      end
  end.

Fixpoint js_prefix (p s : JSString) : bool :=
  match p, s with
  | [], _ => true
  | x :: p', y :: s' => Z.eqb x y && js_prefix p' s'
  | _ :: _, [] => false
  end.

(** String.prototype.includes *)
Fixpoint js_includes (s needle : JSString) : bool :=
  js_prefix needle s ||
  match s with
  | [] => false
  | _ :: s' => js_includes s' needle
  end.

(** v?.includes(needle) as a condition: false on undefined and null, the
    search on a string, membership on an array; any other value has no
    includes and the call throws ([None]). *)
Definition opt_includes (v : option Json) (needle : JSString) : option bool :=
  match v with
  | None | Some JNull => Some false
  | Some (JStr s) => Some (js_includes s needle)
  | Some (JArr items) =>
      Some (existsb (fun e => match e with JStr s => js_eqb s needle | _ => false end) items)
  | Some _ => None
  end.

(** t => t.url?.includes('workbench.html') || t.title?.includes('workbench') *)
Definition is_workbench (t : Json) : option bool :=
  match t with
  | JNull => None
  | _ =>
      match opt_includes (prop "url" t) (units "workbench.html") with
      | None => None
      | Some true => Some true
      | Some false => opt_includes (prop "title" t) (units "workbench")
      end
  end.

(** Array.prototype.filter with a callback that may throw. *)
Fixpoint filter_throwing {A} (p : A -> option bool) (l : list A) : option (list A) :=
  match l with
  | [] => Some []
  | x :: l' =>
      match p x with
      | None => None
      | Some b =>
          match filter_throwing p l' with
          | None => None
          | Some r => Some (if b then x :: r else r)
          end
      end
  end.

(** { ...t, port }. Only objects get here: a value of another type has no
    url and no title and does not pass the filter. *)
Definition with_port (port : Z) (t : Json) : Obj :=
  match t with
  | JObj o => obj_set "port" (JNum port) o
  | _ => [("port", JNum port)]
  end.

Definition PORTS : list Z := [9000; 9001; 9002; 9003].

(** title.split(' - ') on the code units: [cur] holds the piece being read,
    reversed, and [skip] the units of a separator still to pass. *)
Fixpoint split_from (sep : JSString) (skip : nat) (cur : JSString) (s : JSString)
  : list JSString :=
  match s with
  | [] => [rev cur]
  | c :: s' =>
      match skip with
      | S skip' => split_from sep skip' cur s'
      | O =>
          if js_prefix sep s
          then rev cur :: split_from sep (List.length sep - 1) [] s'
          else split_from sep O (c :: cur) s'
      end
  end.

Definition split (sep s : JSString) : list JSString := split_from sep O [] s.

(** extractProjectName(title); [None] when title is truthy and has no
    split. *)
Definition extractProjectName (title : option Json) : option JSString :=
  if truthy title then
    match title with
    | Some (JStr t) =>
        let parts := split (units " - ") t in
        let n := List.length parts in
        if (3 <=? n)%nat then Some (nth (n - 2) parts [])
        else if (n =? 2)%nat then Some (nth 0 parts [])
        else Some t
    | _ => None
    end
  else Some [].

(** One element of the listing that broadcastCascadeList sends. *)
Definition listing (c : Cascade) : option Json :=
  let window := obj_get "windowTitle" (metadata c) in
  match extractProjectName window with
  | None => None
  | Some projectName =>
      Some (JObj (obj_set_opt "active" (obj_get "isActive" (metadata c))
                 (obj_set "projectName" (JStr projectName)
                 (obj_set_opt "window" window
                 (obj_set_opt "title" (obj_get "chatTitle" (metadata c))
                 (obj_set "id" (JStr (units (id c))) []))))))
  end.

Fixpoint map_throwing {A B} (f : A -> option B) (l : list A) : option (list B) :=
  match l with
  | [] => Some []
  | x :: l' =>
      match f x, map_throwing f l' with
      | Some y, Some r => Some (y :: r)
      | _, _ => None
      end
  end.

(** The message of broadcastCascadeList for a registry. *)
Definition cascade_list (m : Registry) : option Json :=
  match map_throwing listing (map snd m) with
  | Some l => Some (JObj [("type", JStr (units "cascade_list")); ("cascades", JArr l)])
  | None => None
  end.

Definition broadcastCascadeList : M World unit :=
  m <- get_cascades ;;
  match cascade_list m with
  | Some msg => broadcast msg
  | None => throw TypeError
  end.

Definition snapshot_update (cascadeId : string) : Json :=
  JObj [("type", JStr (units "snapshot_update")); ("cascadeId", JStr (units cascadeId))].

(** ** The discovery cycle and the snapshot poller *)

Definition set_metadata (md : Obj) (c : Cascade) : Cascade :=
  mkCascade (id c) (cdp c) md (snapshot c) (css c) (snapshotHash c).

Definition set_snapshot (snap : Json) (hash : string) (c : Cascade) : Cascade :=
  mkCascade (id c) (cdp c) (metadata c) (Some snap) (css c) (Some hash).

(** if (meta.contextId): the context id when it is a number other than 0. *)
Definition contextId_of (meta : Obj) : option Z :=
  match obj_get "contextId" meta with
  | Some (JNum n) => if n =? 0 then None else Some n
  | _ => None
  end.

(** hash !== c.snapshotHash *)
Definition hash_differs (hash : string) (stored : option string) : bool :=
  match stored with
  | Some h => negb (String.eqb hash h)
  | None => true
  end.

Section Cycle.

Variable env : Env.

(** getJson: the parsed body, or the empty list on a parse error, a network
    error and a timeout. *)
Definition getJson (port : Z) : Json :=
  match http env port with
  | Body (Some parsed) => parsed
  | Body None => JArr []
  | NetworkError => JArr []
  | RequestTimeout => JArr []
  end.

(** The callback of PORTS.map: the workbench targets of one listener, each
    with its port; [None] when list.filter or the filter callback throws. *)
Definition listTargets (port : Z) : option (list Obj) :=
  match getJson port with
  | JArr items => option_map (map (with_port port)) (filter_throwing is_workbench items)
  | _ => None
  end.

(** allTargets once Promise.all has resolved, taking the listeners in the
    order of PORTS; [None] when one of the callbacks threw, which rejects
    Promise.all. *)
Fixpoint collectTargets (ports : list Z) : option (list Obj) :=
  match ports with
  | [] => Some []
  | port :: rest =>
      match listTargets port, collectTargets rest with
      | Some found, Some others => Some (found ++ others)
      | _, _ => None
      end
  end.

Definition set_root_from (h : nat) (meta : Obj) : M World unit :=
  match contextId_of meta with
  | Some n => lift (modify_session h (set_rootContextId (Some n)))
  | None => ret tt
  end.

(** "Reuse existing": [Some] is the map after newCascades.set(id, existing),
    where the loop continues; [None] falls through to a new connection. The
    entry is one object, so its new metadata shows in the old map too. *)
Definition reuse (fuel : nat) (k : string) (newCascades : Registry)
  : M World (option Registry) :=
  old <- get_cascades ;;
  match map_get k old with
  | None => ret None
  | Some existing =>
      s <- lift (get_session (cdp existing)) ;;
      if isOpen (readyState s) then
        meta <- lift (extractMetadata env fuel (cdp existing)) ;;
        match meta with
        | None => ret None
        | Some meta =>
            let existing' := set_metadata (spread (metadata existing) meta) existing in
            _ <- put_cascades (map_set k existing' old) ;;
            _ <- set_root_from (cdp existing) meta ;;
            ret (Some (map_set k existing' newCascades))
        end
      else ret None
  end.

(** "New connection": the try block of the loop body and its empty catch. *)
Definition connect (fuel : nat) (k : string) (target : Obj) (newCascades : Registry)
  : M World Registry :=
  try_catch
    (h <- lift (connectCDP env (obj_get "webSocketDebuggerUrl" target)) ;;
     meta <- lift (extractMetadata env fuel h) ;;
     match meta with
     | Some meta =>
         _ <- set_root_from h meta ;;
         let conversationId :=
           if truthy (obj_get "conversationId" meta)
           then obj_get "conversationId" meta
           else Some (match mostRecentBrainDir env with
                      | Some dir => JStr dir
                      | None => JNull
                      end) in
         let md :=
           obj_set_opt "url" (js_or (obj_get "url" meta) (Some JNull))
          (obj_set_opt "conversationId" conversationId
          (obj_set_opt "isActive" (obj_get "isActive" meta)
          (obj_set_opt "chatTitle" (obj_get "chatTitle" meta)
          (obj_set_opt "windowTitle" (obj_get "title" target) [])))) in
         style <- lift (captureCSS env h) ;;
         ret (map_set k (mkCascade k h md None style None) newCascades)
     | None =>
         _ <- lift (modify_session h ws_close) ;;
         ret newCascades
     end)
    (fun _ => ret newCascades).

(** The body of for (const target of allTargets). *)
Definition visit (fuel : nat) (target : Obj) (newCascades : Registry) : M World Registry :=
  match js_hashString (obj_get "webSocketDebuggerUrl" target) with
  | None => throw TypeError
  | Some k =>
      reused <- reuse fuel k newCascades ;;
      match reused with
      | Some newCascades' => ret newCascades'
      | None => connect fuel k target newCascades
      end
  end.

Fixpoint visit_all (fuel : nat) (targets : list Obj) (newCascades : Registry)
  : M World Registry :=
  match targets with
  | [] => ret newCascades
  | target :: rest =>
      newCascades' <- visit fuel target newCascades ;;
      visit_all fuel rest newCascades'
  end.

(** "Cleanup old": close the socket of every old entry whose identity is not
    in the new map. *)
Fixpoint cleanup (old newCascades : Registry) : M World unit :=
  match old with
  | [] => ret tt
  | (k, c) :: rest =>
      _ <- (if map_has k newCascades then ret tt
            else try_catch (lift (modify_session (cdp c) ws_close)) (fun _ => ret tt)) ;;
      cleanup rest newCascades
  end.

(** discover() *)
Definition discover (fuel : nat) : M World unit :=
  match collectTargets PORTS with
  | None => throw TypeError
  | Some allTargets =>
      newCascades <- visit_all fuel allTargets [] ;;
      old <- get_cascades ;;
      _ <- cleanup old newCascades ;;
      let changed := negb (size old =? size newCascades)%nat in
      _ <- put_cascades newCascades ;;
      if changed then broadcastCascadeList else ret tt
  end.

(** The callback of updateSnapshots for the entry under key k, from its
    capture to its end. Whatever way it ends, the others go on. The capture
    touches the sockets only, so the entry read before it is the entry as it
    is when the hash is compared. *)
Definition sample (k : string) (w : World) : World :=
  match map_get k (cascades w) with
  | None => w
  | Some c =>
      snd (try_catch
             (snap <- lift (captureHTML env (cdp c)) ;;
              match snap with
              | Some snap =>
                  match js_hashString (prop "html" snap) with
                  | None => throw TypeError
                  | Some hash =>
                      if hash_differs hash (snapshotHash c)
                      then (registry <- get_cascades ;;
                            _ <- put_cascades (map_set k (set_snapshot snap hash c) registry) ;;
                            broadcast (snapshot_update (id c)))
                      else ret tt
                  end
              | None => ret tt
              end)
             (fun _ => ret tt) w)
  end.

(** updateSnapshots(): every entry of the registry sampled once. *)
Definition updateSnapshots (w : World) : World :=
  fold_left (fun w k => sample k w) (map fst (cascades w)) w.

End Cycle.

(** ** What the specification speaks of *)

(** The live Transport Sessions of an identity: the open sockets whose
    address hashes to it. *)
Definition live_sessions (k : string) (w : World) : list nat :=
  filter (fun h =>
            match nth_error (sockets w) h with
            | Some s => isOpen (readyState s) && String.eqb (hashString (url s)) k
            | None => false
            end)
         (seq 0 (List.length (sockets w))).

(** The specification's invariant: no identity has two live sessions. *)
Definition at_most_one_live (w : World) : Prop :=
  forall k, (List.length (live_sessions k w) <= 1)%nat.

(** ** A remote editor, to run the server against *)

Definition workbench_address : JSString := units "ws://127.0.0.1:9000/devtools/page/A".

(** The advertisement of the editor's main window in /json/list. *)
Definition advert : Json :=
  JObj [("title", JStr (units "server.js - Antigravityzilla - Editor"));
        ("url", JStr (units "vscode-file://vscode-app/workbench.html"));
        ("webSocketDebuggerUrl", JStr workbench_address)].

Definition reply (rid : Z) (result : Json) : Data :=
  mkData (Some rid) (Some result) None None.

(** The result of Runtime.evaluate with returnByValue. *)
Definition by_value (v : Json) : Json := JObj [("result", JObj [("value", v)])].

Definition meta_found : Json :=
  JObj [("found", JBool true); ("chatTitle", JStr (units "Agent"));
        ("isActive", JBool true); ("conversationId", JNull);
        ("url", JStr (units "vscode-file://vscode-app/workbench.html"))].

Definition meta_missing : Json :=
  JObj [("found", JBool false); ("reason", JStr (units "no cascade element"))].

Definition captured (bodyBg : JSString) : Json :=
  JObj [("html", JStr (units "<div id=cascade>hello</div>"));
        ("bodyBg", JStr bodyBg);
        ("bodyColor", JStr (units "rgb(0, 0, 0)"))].

(** An editor listening on port 9000 that answers every frame. On the first
    socket opened to it the page has its cascade element up to the third
    request; from the fourth on that socket gets [lost] for an evaluation of
    the metadata script. On a later socket the element is there. The body
    background it reports follows [bodyBg] of the request id. *)
Definition remote (lost : Z -> Data) (bodyBg : Z -> JSString) : Env :=
  mkEnv
    (fun port => if port =? 9000 then Body (Some (JArr [advert])) else NetworkError)
    (fun _ => true)
    (fun h rq =>
       match rq_params rq with
       | EmptyParams => [reply (rq_id rq) (JObj [])]
       | EvaluateParams METADATA_SCRIPT _ =>
           if ((h =? 0)%nat && (3 <? rq_id rq))%bool
           then [lost (rq_id rq)]
           else [reply (rq_id rq) (by_value meta_found)]
       | EvaluateParams CSS_SCRIPT _ =>
           [reply (rq_id rq) (by_value (JObj [("css", JStr (units "a{}"))]))]
       | EvaluateParams HTML_SCRIPT _ =>
           [reply (rq_id rq) (by_value (captured (bodyBg (rq_id rq))))]
       | _ => []
       end)
    (fun _ => [mkData None None None (Some (executionContextCreated (mkContext 1 JNull)))])
    None.

(** The page was reloaded and its cascade element is not there yet. *)
Definition element_missing (rid : Z) : Data := reply rid (by_value meta_missing).

(** The remembered context is gone: the remote answers with an error. *)
Definition context_gone (rid : Z) : Data :=
  mkData (Some rid) None
         (Some (JObj [("code", JNum (-32000));
                      ("message", JStr (units "Cannot find context with specified id"))]))
         None.

Definition editor : Env := remote element_missing (fun _ => units "rgb(255, 255, 255)").

Definition stale : Env := remote context_gone (fun _ => units "rgb(255, 255, 255)").

(** The same editor switching between a light and a dark theme. *)
Definition restyled : Env :=
  remote element_missing
         (fun rid => if Z.even rid then units "rgb(255, 255, 255)" else units "rgb(0, 0, 0)").

(** A listener on port 9000 that is not an editor: its /json/list answers
    with a JSON object. *)
Definition stranger : Env :=
  mkEnv
    (fun port =>
       if port =? 9000 then Body (Some (JObj [("error", JStr (units "not found"))]))
       else NetworkError)
    (fun _ => true) (fun _ _ => []) (fun _ => []) None.

Definition started : World := mkWorld [] [] [].

(** The process after its first and after its second discovery cycle
    against the editor. *)
Definition after_first_cycle : World := snd (discover editor 8 started).

Definition after_second_cycle : World := snd (discover editor 8 after_first_cycle).

(** ** Proof vocabulary for the cycle *)

(** Until the new registry is installed, a cycle changes neither the size of
    the registry nor what was broadcast. *)
Definition untouched (n : nat) (b : list Json) (w : World) : Prop :=
  size (cascades w) = n /\ broadcasts w = b.

(** [m] keeps the world untouched however it ends, and every value it
    returns satisfies [Q]. *)
Definition quiet (n : nat) (b : list Json) {A} (m : M World A) (Q : A -> Prop) : Prop :=
  forall w, untouched n b w ->
            untouched n b (snd (m w)) /\ forall a, fst (m w) = Ok a -> Q a.

(** The process after the poller has sampled the editor once. *)
Definition after_first_sample : World := updateSnapshots editor after_second_cycle.

(** ** hashString and the string helpers on examples *)

Example hashString_empty : hashString [] = "0".
Proof. reflexivity. Qed.

Example hashString_a : hashString (units "a") = "2p".
Proof. reflexivity. Qed.

Example hashString_address : hashString workbench_address = "y9tvjh".
Proof. reflexivity. Qed.

(** The hash wraps around 32 bits and may be negative. *)
Example hashString_negative :
  fold_left hashStep (units "ws://127.0.0.1:9001/devtools/page/B") 0 = -869297169 /\
  hashString (units "ws://127.0.0.1:9001/devtools/page/B") = "-edk1zl".
Proof. split; reflexivity. Qed.

(** Code units above 255 count as they are. *)
Example hashString_wide : hashString [233; 116; 233; 32; 20013] = "3mbdpn".
Proof. reflexivity. Qed.

Lemma toInt32_range z : - 2 ^ 31 <= toInt32 z < 2 ^ 31.
Proof.
  unfold toInt32. pose proof (Z.mod_pos_bound (z + 2 ^ 31) (2 ^ 32) ltac:(lia)). lia.
Qed.

Lemma toInt32_small z : - 2 ^ 31 <= z < 2 ^ 31 -> toInt32 z = z.
Proof.
  intros H. unfold toInt32. rewrite Z.mod_small; lia.
Qed.

(** Every intermediate hash is a 32-bit integer. *)
Lemma hash_range str h :
  - 2 ^ 31 <= h < 2 ^ 31 -> - 2 ^ 31 <= fold_left hashStep str h < 2 ^ 31.
Proof.
  revert h. induction str as [|c str IH]; intros h Hh; simpl; [exact Hh|].
  apply IH. unfold hashStep. apply toInt32_range.
Qed.

Example split_title :
  split (units " - ") (units "server.js - Antigravityzilla - Editor") =
  [units "server.js"; units "Antigravityzilla"; units "Editor"].
Proof. reflexivity. Qed.

Example extractProjectName_three_parts :
  extractProjectName (Some (JStr (units "server.js - Antigravityzilla - Editor"))) =
  Some (units "Antigravityzilla").
Proof. reflexivity. Qed.

Example extractProjectName_two_parts :
  extractProjectName (Some (JStr (units "Antigravityzilla - Editor"))) =
  Some (units "Antigravityzilla").
Proof. reflexivity. Qed.

Example extractProjectName_missing : extractProjectName None = Some [].
Proof. reflexivity. Qed.

Example is_workbench_advert : is_workbench advert = Some true.
Proof. reflexivity. Qed.

Example is_workbench_null_throws : is_workbench JNull = None.
Proof. reflexivity. Qed.

(** ** Facts about the session *)

Section SessionFacts.

Lemma off_handlers i ids :
  off (CallHandler i) (map CallHandler ids) = map CallHandler (remove1 i ids).
Proof.
  induction ids as [|j ids IH]; simpl; [reflexivity|].
  destruct (Z.eqb i j); [reflexivity|]. now rewrite IH.
Qed.

Lemma remove1_In i j ids : In j (remove1 i ids) -> In j ids.
Proof.
  induction ids as [|k ids IH]; simpl; [tauto|].
  destruct (Z.eqb i k); simpl; intuition.
Qed.

Lemma remove1_NoDup i ids : NoDup ids -> NoDup (remove1 i ids).
Proof.
  induction 1 as [|k ids Hk Hnd IH]; simpl; [constructor|].
  destruct (Z.eqb i k); [assumption|].
  constructor; [|assumption]. intro H; apply Hk. eapply remove1_In; eassumption.
Qed.

Lemma remove1_gone i ids : NoDup ids -> ~ In i (remove1 i ids).
Proof.
  induction 1 as [|k ids Hk Hnd IH]; simpl; [tauto|].
  destruct (Z.eqb_spec i k) as [->|Hne]; [assumption|].
  simpl. intros [->|H]; [congruence|auto].
Qed.

Lemma remove1_keeps i j ids : j <> i -> In j ids -> In j (remove1 i ids).
Proof.
  intros Hne. induction ids as [|k ids IH]; simpl; [tauto|].
  destruct (Z.eqb_spec i k) as [->|Hik]; simpl; intuition congruence.
Qed.

Lemma remove1_absent i ids : ~ In i ids -> remove1 i ids = ids.
Proof.
  induction ids as [|k ids IH]; simpl; [reflexivity|]. intros H.
  destruct (Z.eqb_spec i k) as [->|Hik]; [tauto|]. f_equal. tauto.
Qed.

Lemma In_handler i ids : In (CallHandler i) (map CallHandler ids) <-> In i ids.
Proof.
  rewrite in_map_iff. split.
  - intros [j [E H]]. now inversion E; subst.
  - intros H. now exists i.
Qed.

Lemma settlement_app_miss i st p :
  fst p <> i -> settlement i (st ++ [p]) = settlement i st.
Proof.
  intros Hne. unfold settlement. induction st as [|q st IH]; simpl.
  - destruct (Z.eqb_spec (fst p) i); [contradiction|reflexivity].
  - destruct (Z.eqb (fst q) i); [reflexivity|exact IH].
Qed.

Lemma settlement_app_hit i o st :
  settlement i st = None -> settlement i (st ++ [(i, o)]) = Some o.
Proof.
  unfold settlement. induction st as [|q st IH]; simpl.
  - now rewrite Z.eqb_refl.
  - destruct (Z.eqb (fst q) i); [discriminate|exact IH].
Qed.

Lemma settlement_settle_other i j o st :
  j <> i -> settlement i (settle j o st) = settlement i st.
Proof.
  intros Hne. unfold settle. destruct (settlement j st); [reflexivity|].
  now apply settlement_app_miss.
Qed.

Lemma settlement_settle_same i o st :
  settlement i st = None -> settlement i (settle i o st) = Some o.
Proof.
  intros H. unfold settle. rewrite H. now apply settlement_app_hit.
Qed.

Variable data : Data.

Abbreviation handle := (fun (s : Session) (l : Listener) => run_listener data l s).

(** A frame that bears none of the ids runs through the handlers untouched. *)
Lemma handlers_miss ids s :
  (forall i, In i ids -> id_matches data i = false) ->
  fold_left handle (map CallHandler ids) s = s.
Proof.
  revert s. induction ids as [|j ids IH]; intros s H; simpl; [reflexivity|].
  rewrite (H j (or_introl eq_refl)).
  apply IH. intros i Hi. apply H. now right.
Qed.

(** A frame that bears the id of one of them is consumed by that one. *)
Lemma handlers_hit ids s i :
  d_id data = Some i -> NoDup ids -> In i ids ->
  fold_left handle (map CallHandler ids) s =
  set_settled (settle i (outcome_of data) (settled s))
              (set_listeners (off (CallHandler i) (listeners s)) s).
Proof.
  intros Hid. revert s. induction ids as [|j ids IH]; intros s Hnd Hin; [destruct Hin|].
  inversion Hnd as [|? ? Hj Hnd']; subst. simpl.
  unfold id_matches at 1. rewrite Hid.
  destruct (Z.eqb_spec i j) as [->|Hne].
  - apply handlers_miss. intros k Hk. unfold id_matches. rewrite Hid.
    apply Z.eqb_neq. intros ->. contradiction.
  - apply IH; [assumption|]. destruct Hin as [->|Hin]; [congruence|assumption].
Qed.

Lemma emit_message_tracks s ids :
  listeners s = ContextTracker :: map CallHandler ids ->
  emit_message data s =
  fold_left handle (map CallHandler ids)
            (set_contexts (trackContexts (d_method data) (contexts s)) s).
Proof.
  intros H. unfold emit_message. rewrite H. reflexivity.
Qed.

End SessionFacts.

Lemma wf_opened u : wf (opened u).
Proof.
  split.
  - exists []. simpl. split; [reflexivity|]. split; [constructor|]. intros i [].
  - intros i H. now contradiction H.
Qed.

Lemma wf_call_send method params s : wf s -> wf (call_send method params s).
Proof.
  intros [[ids [Hl [Hnd Hids]]] Hst]. split.
  - exists (ids ++ [idCounter s]). simpl. rewrite Hl, map_app. simpl.
    split; [reflexivity|]. split.
    + apply NoDup_app; [assumption | repeat constructor; intros [] |].
      intros i Hi [<-|[]]. apply Hids in Hi. lia.
    + intros i H. apply in_app_iff in H. destruct H as [H|[<-|[]]].
      * apply Hids in H. split; [lia|tauto].
      * split; [lia|].
        destruct (settlement (idCounter s) (settled s)) eqn:E; [|reflexivity].
        assert (idCounter s < idCounter s) by (apply Hst; congruence). lia.
  - simpl. intros i H. apply Hst in H. lia.
Qed.

Lemma wf_emit_message data s : wf s -> wf (emit_message data s).
Proof.
  intros [[ids [Hl [Hnd Hids]]] Hst].
  rewrite (emit_message_tracks data s ids Hl).
  set (s1 := set_contexts _ s).
  assert (Hkeep : wf s1) by (split; [exists ids; auto | exact Hst]).
  destruct (d_id data) as [i|] eqn:Hid.
  - destruct (in_dec Z.eq_dec i ids) as [Hin|Hnin].
    + rewrite (handlers_hit data ids s1 i Hid Hnd Hin). split.
      * exists (remove1 i ids). simpl. rewrite Hl. simpl. rewrite off_handlers.
        split; [reflexivity|]. split; [now apply remove1_NoDup|].
        intros j Hj. rewrite settlement_settle_other.
        -- apply remove1_In in Hj. now apply Hids.
        -- intros ->. revert Hj. now apply remove1_gone.
      * simpl. intros j Hj. destruct (Z.eq_dec j i) as [->|Hne].
        -- now apply Hids.
        -- rewrite settlement_settle_other in Hj by congruence. now apply Hst.
    + rewrite handlers_miss; [exact Hkeep|].
      intros j Hj. unfold id_matches. rewrite Hid. apply Z.eqb_neq. congruence.
  - rewrite handlers_miss; [exact Hkeep|].
    intros j Hj. unfold id_matches. now rewrite Hid.
Qed.

Lemma wf_step e s : wf s -> wf (step e s).
Proof.
  destruct e; simpl; [apply wf_emit_message | | ]; auto.
Qed.

Lemma reachable_wf s : reachable s -> wf s.
Proof.
  induction 1; auto using wf_opened, wf_call_send, wf_step.
Qed.

Lemma reachable_run evs s : reachable s -> reachable (run evs s).
Proof.
  revert s. induction evs as [|e evs IH]; intros s H; simpl; [assumption|].
  apply IH. now constructor.
Qed.

Lemma pending_ids s ids i :
  listeners s = ContextTracker :: map CallHandler ids ->
  In (CallHandler i) (listeners s) <-> In i ids.
Proof.
  intros ->. simpl. rewrite In_handler. split; [intros [H|H]; [discriminate|assumption] | tauto].
Qed.

(** A frame bearing the id of a waiting call: that call's handler leaves the
    listeners and its promise is settled; the tracker sees the frame too. *)
Lemma emit_message_hit data s ids i :
  listeners s = ContextTracker :: map CallHandler ids -> NoDup ids ->
  d_id data = Some i -> In i ids ->
  emit_message data s =
  set_settled (settle i (outcome_of data) (settled s))
    (set_listeners (ContextTracker :: map CallHandler (remove1 i ids))
       (set_contexts (trackContexts (d_method data) (contexts s)) s)).
Proof.
  intros Hl Hnd Hid Hin.
  rewrite (emit_message_tracks data s ids Hl), (handlers_hit data ids _ i Hid Hnd Hin).
  simpl. rewrite Hl. simpl. now rewrite off_handlers.
Qed.

(** A frame bearing no id, or the id of no waiting call, only reaches the
    tracker. *)
Lemma emit_message_miss data s ids :
  listeners s = ContextTracker :: map CallHandler ids ->
  (forall i, d_id data = Some i -> ~ In i ids) ->
  emit_message data s = set_contexts (trackContexts (d_method data) (contexts s)) s.
Proof.
  intros Hl Hno. rewrite (emit_message_tracks data s ids Hl). apply handlers_miss.
  intros j Hj. unfold id_matches. destruct (d_id data) as [i|] eqn:E; [|reflexivity].
  apply Z.eqb_neq. intros ->. now apply (Hno j).
Qed.

Lemma emit_message_contexts data s :
  wf s -> contexts (emit_message data s) = trackContexts (d_method data) (contexts s).
Proof.
  intros [[ids [Hl [Hnd Hids]]] _].
  destruct (d_id data) as [i|] eqn:Hid.
  - destruct (in_dec Z.eq_dec i ids) as [Hin|Hnin].
    + now rewrite (emit_message_hit data s ids i).
    + rewrite (emit_message_miss data s ids); [reflexivity|assumption|].
      intros j Hj. congruence.
  - rewrite (emit_message_miss data s ids); [reflexivity|assumption|]. congruence.
Qed.

Lemma pending_step s i e :
  wf s -> pending i s -> is_reply_to i e = false -> pending i (step e s).
Proof.
  intros [[ids [Hl [Hnd Hids]]] _] [Hin Hst] Hno.
  destruct e as [data| |ms]; simpl; [|split; assumption|split; assumption].
  simpl in Hno. apply (pending_ids s ids i Hl) in Hin.
  destruct (d_id data) as [k|] eqn:Hid.
  - assert (Hki : k <> i).
    { unfold id_matches in Hno. rewrite Hid in Hno. now apply Z.eqb_neq. }
    destruct (in_dec Z.eq_dec k ids) as [Hk|Hk].
    + rewrite (emit_message_hit data s ids k Hl Hnd Hid Hk). split; simpl.
      * right. apply In_handler. apply remove1_keeps; [congruence|assumption].
      * now rewrite settlement_settle_other.
    + rewrite (emit_message_miss data s ids Hl).
      * split; simpl; [rewrite Hl; right; now apply In_handler | assumption].
      * intros j Hj. congruence.
  - rewrite (emit_message_miss data s ids Hl); [|congruence].
    split; simpl; [rewrite Hl; right; now apply In_handler | assumption].
Qed.

Lemma pending_run evs s i :
  wf s -> pending i s -> no_reply_to i evs = true -> pending i (run evs s).
Proof.
  revert s. induction evs as [|e evs IH]; intros s Hwf Hp Hno; simpl; [assumption|].
  simpl in Hno. apply andb_true_iff in Hno. destruct Hno as [He Hno].
  apply negb_true_iff in He.
  apply IH; [now apply wf_step | now apply pending_step | assumption].
Qed.

(** The reply of a waiting call settles it with the outcome the reply
    carries, and leaves the other waiting calls as they are. *)
Lemma reply_settles s i data :
  wf s -> pending i s -> d_id data = Some i ->
  settlement i (settled (step (Message data) s)) = Some (outcome_of data) /\
  ~ In (CallHandler i) (listeners (step (Message data) s)) /\
  forall j, j <> i ->
    settlement j (settled (step (Message data) s)) = settlement j (settled s).
Proof.
  intros [[ids [Hl [Hnd Hids]]] _] [Hin Hst] Hid. simpl.
  apply (pending_ids s ids i Hl) in Hin.
  rewrite (emit_message_hit data s ids i Hl Hnd Hid Hin). simpl.
  split; [now apply settlement_settle_same|]. split.
  - intros [H|H]; [discriminate|]. apply In_handler in H. revert H. now apply remove1_gone.
  - intros j Hj. now apply settlement_settle_other.
Qed.

Lemma run_app evs1 evs2 s : run (evs1 ++ evs2) s = run evs2 (run evs1 s).
Proof. unfold run. apply fold_left_app. Qed.

Lemma wf_run evs s : wf s -> wf (run evs s).
Proof.
  revert s. induction evs as [|e evs IH]; intros s H; simpl; [assumption|].
  apply IH. now apply wf_step.
Qed.

(** The ids of the waiting calls are distinct and below the counter: no id
    is handed out twice, and no two handlers wait for the same id. *)
Theorem one_waiting_handler_per_id s :
  reachable s ->
  exists ids,
    listeners s = ContextTracker :: map CallHandler ids /\
    NoDup ids /\
    forall i, In i ids -> i < idCounter s.
Proof.
  intros Hr. destruct (reachable_wf s Hr) as [[ids [Hl [Hnd Hids]]] _].
  exists ids. split; [exact Hl|]. split; [exact Hnd|].
  intros i Hi. now apply Hids.
Qed.

Lemma one_waiting_handler_per_id_witness :
  exists ids,
    listeners (call_send "Runtime.evaluate" (EvaluateParams HTML_SCRIPT (Some 1))
                 (call_send "Runtime.enable" EmptyParams (opened workbench_address))) =
    ContextTracker :: map CallHandler ids /\
    NoDup ids /\
    forall i, In i ids -> i < 3.
Proof.
  apply (one_waiting_handler_per_id
           (call_send "Runtime.evaluate" (EvaluateParams HTML_SCRIPT (Some 1))
              (call_send "Runtime.enable" EmptyParams (opened workbench_address)))).
  repeat constructor.
Defined.

Lemma fold_listeners_readyState data ls s :
  readyState (fold_left (fun s l => run_listener data l s) ls s) = readyState s.
Proof.
  revert s. induction ls as [|l ls IH]; intros s; simpl; [reflexivity|].
  rewrite IH. destruct l as [|i]; simpl; [reflexivity|]. now destruct (id_matches data i).
Qed.

(** An error reply rejects the call it answers and nothing else: the other
    waiting calls keep waiting and the socket stays as it is. *)
Theorem error_reply_rejects_its_call_only s i j data e :
  reachable s -> pending i s -> pending j s -> i <> j ->
  d_id data = Some i -> d_error data = Some e -> truthy (Some e) = true ->
  settlement i (settled (step (Message data) s)) = Some (Rejected e) /\
  pending j (step (Message data) s) /\
  readyState (step (Message data) s) = readyState s.
Proof.
  intros Hr Hi Hj Hne Hid He Ht.
  pose proof (reachable_wf s Hr) as Hwf.
  destruct (reply_settles s i data Hwf Hi Hid) as [A _].
  split; [|split].
  - rewrite A. unfold outcome_of. now rewrite He, Ht.
  - apply pending_step; try assumption. simpl. unfold id_matches. rewrite Hid.
    now apply Z.eqb_neq.
  - apply fold_listeners_readyState.
Qed.

Lemma error_reply_rejects_its_call_only_witness :
  let s := call_send "Runtime.evaluate" (EvaluateParams HTML_SCRIPT (Some 1))
             (call_send "Runtime.enable" EmptyParams (opened workbench_address)) in
  settlement 2 (settled (step (Message (context_gone 2)) s)) =
    Some (Rejected (JObj [("code", JNum (-32000));
                          ("message", JStr (units "Cannot find context with specified id"))])) /\
  pending 1 (step (Message (context_gone 2)) s) /\
  readyState (step (Message (context_gone 2)) s) = OPEN.
Proof.
  cbv zeta.
  change OPEN with
    (readyState (call_send "Runtime.evaluate" (EvaluateParams HTML_SCRIPT (Some 1))
                   (call_send "Runtime.enable" EmptyParams (opened workbench_address)))).
  apply (error_reply_rejects_its_call_only _ 2 1 (context_gone 2)
           (JObj [("code", JNum (-32000));
                  ("message", JStr (units "Cannot find context with specified id"))])).
  - repeat constructor.
  - split; [simpl; tauto | reflexivity].
  - split; [simpl; tauto | reflexivity].
  - lia.
  - reflexivity.
  - reflexivity.
  - reflexivity.
Defined.

(** ** The context tracker *)

Lemma findIndex_none {A} (p : A -> bool) l :
  (forall x, In x l -> p x = false) -> findIndex p l = None.
Proof.
  induction l as [|x l IH]; simpl; intros H; [reflexivity|].
  rewrite (H x (or_introl eq_refl)), IH; [reflexivity|]. intros y Hy. apply H. now right.
Qed.

Lemma findIndex_first {A} (p : A -> bool) l1 x l2 :
  (forall y, In y l1 -> p y = false) -> p x = true ->
  findIndex p (l1 ++ x :: l2) = Some (List.length l1).
Proof.
  intros H Hx. induction l1 as [|y l1 IH]; simpl.
  - now rewrite Hx.
  - rewrite (H y (or_introl eq_refl)), IH; [reflexivity|]. intros z Hz. apply H. now right.
Qed.

Lemma splice1_middle {A} (l1 : list A) x l2 :
  splice1 (List.length l1) (l1 ++ x :: l2) = l1 ++ l2.
Proof.
  unfold splice1. induction l1 as [|y l1 IH]; simpl; [reflexivity|].
  f_equal. exact IH.
Qed.

(** C8. A 'Runtime.executionContextDestroyed' notification removes from the
    session's contexts the descriptor whose id is the notification's
    executionContextId (the first one, should several carry it) and keeps
    the others in order; when no descriptor carries that id the contexts are
    left as they are. The handler is total: nothing is raised either way. *)
Theorem context_destroyed_removes_matching s data x :
  reachable s -> d_method data = Some (executionContextDestroyed x) ->
  let cs := contexts s in
  let cs' := contexts (step (Message data) s) in
  ((forall c, In c cs -> ctx_id c <> x) -> cs' = cs) /\
  (forall l1 c l2,
      cs = l1 ++ c :: l2 -> ctx_id c = x ->
      (forall c', In c' l1 -> ctx_id c' <> x) ->
      cs' = l1 ++ l2).
Proof.
  intros Hr Hm cs cs'. subst cs cs'. simpl.
  rewrite (emit_message_contexts data s (reachable_wf s Hr)), Hm. simpl. split.
  - intros Hno. rewrite findIndex_none; [reflexivity|].
    intros c Hc. apply Z.eqb_neq. now apply Hno.
  - intros l1 c l2 -> Hc Hl1. rewrite findIndex_first.
    + apply splice1_middle.
    + intros y Hy. apply Z.eqb_neq. now apply Hl1.
    + now apply Z.eqb_eq.
Qed.

Lemma context_destroyed_removes_matching_witness :
  let c1 := mkContext 1 JNull in
  let c2 := mkContext 2 JNull in
  let created c := Message (mkData None None None (Some (executionContextCreated c))) in
  let destroyed x := mkData None None None (Some (executionContextDestroyed x)) in
  let s := run [created c1; created c2] (opened (units "ws://127.0.0.1:9000/devtools/page/A")) in
  contexts s = [c1; c2] /\
  contexts (step (Message (destroyed 1)) s) = [c2] /\
  contexts (step (Message (destroyed 7)) s) = [c1; c2].
Proof.
  cbv zeta.
  set (s := run _ (opened _)).
  assert (Hr : reachable s) by (apply reachable_run; constructor).
  split; [reflexivity|]. split.
  - exact (proj2 (context_destroyed_removes_matching s
             (mkData None None None (Some (executionContextDestroyed 1))) 1 Hr eq_refl)
             [] (mkContext 1 JNull) [mkContext 2 JNull] eq_refl eq_refl
             (fun c' (H : In c' []) => match H with end)).
  - apply (proj1 (context_destroyed_removes_matching s
             (mkData None None None (Some (executionContextDestroyed 7))) 7 Hr eq_refl)).
    intros c [<-|[<-|[]]]; simpl; lia.
Defined.

(** ** Calls and their replies *)

Lemma two_replies s i j di dj :
  wf s -> pending i s -> pending j s -> i <> j ->
  d_id di = Some i -> d_id dj = Some j ->
  let s' := run [Message di; Message dj] s in
  settlement i (settled s') = Some (outcome_of di) /\
  settlement j (settled s') = Some (outcome_of dj) /\
  ~ In (CallHandler i) (listeners s') /\
  ~ In (CallHandler j) (listeners s').
Proof.
  intros Hwf Hi Hj Hne Hdi Hdj. simpl.
  assert (Hwf1 : wf (step (Message di) s)) by now apply wf_step.
  assert (Hj1 : pending j (step (Message di) s)).
  { apply pending_step; try assumption. simpl. unfold id_matches. rewrite Hdi.
    now apply Z.eqb_neq. }
  destruct (reply_settles s i di Hwf Hi Hdi) as [Si [Li _]].
  destruct (reply_settles _ j dj Hwf1 Hj1 Hdj) as [Sj [Lj Keep]].
  simpl in *. split; [|split; [|split]].
  - rewrite Keep by congruence. exact Si.
  - exact Sj.
  - destruct Hwf1 as [[ids [Hl [Hnd Hids]]] _].
    rewrite (emit_message_hit dj _ ids j Hl Hnd Hdj).
    + simpl. intros [H|H]; [discriminate|]. apply In_handler, remove1_In in H.
      apply Li. simpl. rewrite Hl. right. now apply In_handler.
    + destruct Hj1 as [Hin _]. now apply (pending_ids _ ids j Hl) in Hin.
  - exact Lj.
Qed.

(** C5. Two calls waiting on one session with distinct ids are each settled
    by the reply bearing its own id, whichever reply arrives first: in send
    order or in the reverse order, each caller gets the outcome of its own
    reply (its result, or its error when the reply carries one), and both
    handlers are gone afterwards. *)
Theorem replies_matched_by_id s i j di dj evs :
  reachable s -> pending i s -> pending j s -> i <> j ->
  d_id di = Some i -> d_id dj = Some j ->
  evs = [Message di; Message dj] \/ evs = [Message dj; Message di] ->
  settlement i (settled (run evs s)) = Some (outcome_of di) /\
  settlement j (settled (run evs s)) = Some (outcome_of dj) /\
  ~ In (CallHandler i) (listeners (run evs s)) /\
  ~ In (CallHandler j) (listeners (run evs s)).
Proof.
  intros Hr Hi Hj Hne Hdi Hdj [->| ->].
  - now apply two_replies; [apply reachable_wf| | | | |].
  - destruct (two_replies s j i dj di) as [A [B [C D]]];
      try assumption; [now apply reachable_wf | congruence | tauto].
Qed.

Lemma replies_matched_by_id_witness :
  let s := call_send "Runtime.evaluate" (EvaluateParams HTML_SCRIPT (Some 3))
             (call_send "Runtime.enable" EmptyParams
                (opened (units "ws://127.0.0.1:9000/devtools/page/A"))) in
  let reply1 := mkData (Some 1) (Some (JObj [])) None None in
  let reply2 := mkData (Some 2) (Some (JObj [("result", JObj [("value", JNum 7)])])) None None in
  let s' := run [Message reply2; Message reply1] s in
  settlement 1 (settled s') = Some (Resolved (Some (JObj []))) /\
  settlement 2 (settled s') =
    Some (Resolved (Some (JObj [("result", JObj [("value", JNum 7)])]))) /\
  ~ In (CallHandler 1) (listeners s') /\
  ~ In (CallHandler 2) (listeners s').
Proof.
  cbv zeta.
  apply (replies_matched_by_id _ 1 2
           (mkData (Some 1) (Some (JObj [])) None None)
           (mkData (Some 2) (Some (JObj [("result", JObj [("value", JNum 7)])])) None None)).
  - repeat constructor.
  - split; [simpl; tauto | reflexivity].
  - split; [simpl; tauto | reflexivity].
  - lia.
  - reflexivity.
  - reflexivity.
  - right. reflexivity.
Defined.

(** C1 as the specification states it fails: a call that gets no reply is
    still waiting after a day, and no bound makes the wait bounded. *)
Lemma call_wait_has_no_bound :
  (let s := run [Elapse 86400000]
              (call_send "Runtime.enable" EmptyParams
                 (opened (units "ws://127.0.0.1:9000/devtools/page/A"))) in
   listeners s = [ContextTracker; CallHandler 1] /\ settled s = []) /\
  (forall bound, ~ bounded_wait bound).
Proof.
  split; [split; reflexivity|].
  intros bound H.
  destruct (H (call_send "Runtime.enable" EmptyParams (opened [])) 1
              [Elapse (Z.max bound 0)]) as [Hgone _].
  - repeat constructor.
  - split; [simpl; tauto | reflexivity].
  - reflexivity.
  - simpl. lia.
  - apply Hgone. simpl. tauto.
Qed.

(** C1, amended. The wait of a call has no bound: a waiting call keeps its
    handler and stays unsettled over any events that bring no frame bearing
    its id, however much time passes and even if the connection terminates;
    no timeout error is produced. A frame bearing its id, whenever it comes,
    settles the call with that frame's outcome and removes the handler. A
    frame whose id is that of no waiting call settles nothing and removes no
    handler. *)
Theorem call_waits_until_its_reply s i evs data :
  reachable s -> pending i s -> no_reply_to i evs = true -> d_id data = Some i ->
  pending i (run evs s) /\
  settlement i (settled (run (evs ++ [Message data]) s)) = Some (outcome_of data) /\
  ~ In (CallHandler i) (listeners (run (evs ++ [Message data]) s)) /\
  (forall stray,
      (forall k, d_id stray = Some k -> ~ In (CallHandler k) (listeners (run evs s))) ->
      listeners (step (Message stray) (run evs s)) = listeners (run evs s) /\
      settled (step (Message stray) (run evs s)) = settled (run evs s)).
Proof.
  intros Hr Hp Hno Hid.
  assert (Hwf : wf (run evs s)) by (apply wf_run; now apply reachable_wf).
  assert (Hp' : pending i (run evs s)) by (apply pending_run; auto using reachable_wf).
  split; [exact Hp'|]. rewrite run_app. simpl.
  destruct (reply_settles _ i data Hwf Hp' Hid) as [A [B _]].
  split; [exact A|]. split; [exact B|].
  intros stray Hstray. destruct Hwf as [[ids [Hl _]] _].
  rewrite (emit_message_miss stray _ ids Hl); [split; reflexivity|].
  intros k Hk Hin. apply (Hstray k Hk). rewrite Hl. right. now apply In_handler.
Qed.

Lemma call_waits_until_its_reply_witness :
  let s := call_send "Runtime.enable" EmptyParams
             (opened (units "ws://127.0.0.1:9000/devtools/page/A")) in
  let evs := [Elapse 60000; Message (mkData (Some 9) None None None); Close; Elapse 60000] in
  let late := mkData (Some 1) (Some (JObj [])) None None in
  pending 1 (run evs s) /\
  settlement 1 (settled (run (evs ++ [Message late]) s)) = Some (Resolved (Some (JObj []))) /\
  ~ In (CallHandler 1) (listeners (run (evs ++ [Message late]) s)).
Proof.
  cbv zeta.
  pose proof (call_waits_until_its_reply
                (call_send "Runtime.enable" EmptyParams
                   (opened (units "ws://127.0.0.1:9000/devtools/page/A")))
                1
                [Elapse 60000; Message (mkData (Some 9) None None None); Close; Elapse 60000]
                (mkData (Some 1) (Some (JObj [])) None None)) as H.
  destruct H as [A [B [C _]]].
  - repeat constructor.
  - split; [simpl; tauto | reflexivity].
  - reflexivity.
  - reflexivity.
  - exact (conj A (conj B C)).
Defined.

(** C2 as the specification states it fails: when the connection terminates
    with a call waiting, the call is not failed; its handler stays and its
    caller stays unsettled. *)
Lemma close_fails_no_pending_call :
  (let s := step Close
              (call_send "Runtime.enable" EmptyParams
                 (opened (units "ws://127.0.0.1:9000/devtools/page/A"))) in
   readyState s = CLOSED /\
   listeners s = [ContextTracker; CallHandler 1] /\ settled s = []) /\
  ~ fails_pending_on_close.
Proof.
  split; [repeat split; reflexivity|].
  intros H.
  destruct (H (call_send "Runtime.enable" EmptyParams (opened [])) 1) as [Hgone _].
  - repeat constructor.
  - split; [simpl; tauto | reflexivity].
  - apply Hgone. simpl. tauto.
Qed.

(** C2, amended. When the connection of a session terminates, the session is
    marked closed and nothing else happens to it: every call that was
    waiting is still waiting afterwards, with its handler registered and its
    caller unsettled; no call is failed by the termination. *)
Theorem close_leaves_calls_pending s :
  readyState (step Close s) = CLOSED /\
  listeners (step Close s) = listeners s /\
  settled (step Close s) = settled s /\
  (forall i, pending i (step Close s) <-> pending i s).
Proof.
  unfold pending. simpl. repeat split; tauto.
Qed.

(** ** The sockets of the process *)

Lemma nth_error_set_nth {A} (l : list A) n x y :
  nth_error l n = Some y -> nth_error (set_nth n x l) n = Some x.
Proof.
  revert n. induction l as [|z l IH]; intros [|n] H; simpl in *;
    try discriminate; [reflexivity | now apply IH].
Qed.

Lemma run_listener_root data l s :
  rootContextId (run_listener data l s) = rootContextId s.
Proof.
  destruct l as [|i]; simpl; [reflexivity|]. now destruct (id_matches data i).
Qed.

Lemma fold_listeners_root data ls s :
  rootContextId (fold_left (fun s l => run_listener data l s) ls s) = rootContextId s.
Proof.
  revert s. induction ls as [|l ls IH]; intros s; simpl; [reflexivity|].
  now rewrite IH, run_listener_root.
Qed.

Lemma emit_message_root data s :
  rootContextId (emit_message data s) = rootContextId s.
Proof. apply fold_listeners_root. Qed.

Lemma deliver_root i frames s :
  rootContextId (deliver i frames s) = rootContextId s.
Proof.
  revert s. induction frames as [|d frames IH]; intros s; simpl; [reflexivity|].
  destruct (settlement i (settled (emit_message d s)));
    [|rewrite IH]; apply emit_message_root.
Qed.

(** A call leaves the remembered context id of its session alone, however it
    ends. *)
Lemma call_root env h method params hp o hp' s :
  nth_error hp h = Some s ->
  call env h method params hp = (o, hp') ->
  exists s', nth_error hp' h = Some s' /\ rootContextId s' = rootContextId s.
Proof.
  intros Hs. unfold call. rewrite Hs.
  set (s' := deliver _ _ _).
  assert (Hroot : rootContextId s' = rootContextId s)
    by (unfold s'; now rewrite deliver_root).
  assert (Hnth : nth_error (set_nth h s' hp) h = Some s')
    by (eapply nth_error_set_nth; eassumption).
  destruct (settlement (idCounter s) (settled s')) as [[r|e]|];
    intros E; inversion E; subst; exists s'; split; assumption.
Qed.

Lemma member_state {St} k v (st : St) : snd (member k v st) = st.
Proof. destruct v as [[]|]; reflexivity. Qed.

Lemma evaluate_root env h script ctx hp o hp' s :
  nth_error hp h = Some s ->
  evaluate env h script ctx hp = (o, hp') ->
  exists s', nth_error hp' h = Some s' /\ rootContextId s' = rootContextId s.
Proof.
  intros Hs. unfold evaluate, bind.
  destruct (call env h "Runtime.evaluate" (EvaluateParams script ctx) hp)
    as [[res| | |] hp1] eqn:Hc;
    destruct (call_root _ _ _ _ _ _ _ _ Hs Hc) as [s' [H1 H2]];
    intros E.
  - pose proof (member_state "result" res hp1) as Hm. rewrite E in Hm. simpl in Hm.
    subst. now exists s'.
  - inversion E; subst. now exists s'.
  - inversion E; subst. now exists s'.
  - inversion E; subst. now exists s'.
Qed.

(** ** extractMetadata and the remembered context *)

(** C9 as the specification states it fails: on the first socket of the
    editor, after the first cycle, the direct evaluation against the
    remembered context 1 comes back without a found payload, and the search
    starts, and ends, with context 1 still remembered. *)
Lemma direct_miss_keeps_remembered_context :
  let hp := sockets after_first_cycle in
  option_map rootContextId (nth_error hp 0) = Some (Some 1) /\
  fst (directPath editor 0 hp) = Ok None /\
  option_map rootContextId (nth_error (snd (directPath editor 0 hp)) 0) = Some (Some 1) /\
  extractMetadata editor 8 0 hp = searchContexts editor 8 0 0 (snd (directPath editor 0 hp)) /\
  fst (extractMetadata editor 8 0 hp) = Ok None /\
  option_map rootContextId (nth_error (snd (extractMetadata editor 8 0 hp)) 0) = Some (Some 1).
Proof.
  vm_compute. repeat split.
Qed.

(** C9, amended. When extractMetadata takes the direct path against a
    remembered context id and the evaluation throws (the call is rejected by
    an error reply, or its reply carries no result), the remembered id is
    cleared and the search over the contexts starts from the state where it
    is cleared. When the evaluation returns a result whose value is not
    marked found, the remembered id is kept and the search starts with it
    still set. *)
Theorem direct_path_clears_context_on_throw env h hp s r :
  nth_error hp h = Some s -> remembered (rootContextId s) = Some r ->
  (forall e hp1,
      evaluate env h METADATA_SCRIPT (Some r) hp = (Throw e, hp1) ->
      exists hp2,
        directPath env h hp = (Ok None, hp2) /\
        option_map rootContextId (nth_error hp2 h) = Some None /\
        forall fuel, extractMetadata env fuel h hp = searchContexts env fuel h 0 hp2) /\
  (forall result hp1,
      evaluate env h METADATA_SCRIPT (Some r) hp = (Ok result, hp1) ->
      found_value result = None ->
      directPath env h hp = (Ok None, hp1) /\
      option_map rootContextId (nth_error hp1 h) = Some (rootContextId s) /\
      forall fuel, extractMetadata env fuel h hp = searchContexts env fuel h 0 hp1).
Proof.
  intros Hs Hr. split.
  - intros e hp1 He.
    destruct (evaluate_root _ _ _ _ _ _ _ _ Hs He) as [s1 [Hs1 _]].
    exists (set_nth h (set_rootContextId None s1) hp1).
    assert (Hd : directPath env h hp =
                 (Ok None, set_nth h (set_rootContextId None s1) hp1)).
    { unfold directPath, bind at 1, get_session. rewrite Hs, Hr.
      unfold try_catch, bind at 1. rewrite He.
      unfold bind, modify_session. rewrite Hs1. reflexivity. }
    split; [exact Hd|]. split.
    + now rewrite (nth_error_set_nth _ _ _ _ Hs1).
    + intros fuel. unfold extractMetadata, bind. now rewrite Hd.
  - intros result hp1 He Hf.
    destruct (evaluate_root _ _ _ _ _ _ _ _ Hs He) as [s1 [Hs1 Hroot]].
    assert (Hd : directPath env h hp = (Ok None, hp1)).
    { unfold directPath, bind at 1, get_session. rewrite Hs, Hr.
      unfold try_catch, bind at 1. rewrite He, Hf. reflexivity. }
    split; [exact Hd|]. split.
    + rewrite Hs1. simpl. now rewrite Hroot.
    + intros fuel. unfold extractMetadata, bind. now rewrite Hd.
Qed.

Lemma direct_path_clears_context_on_throw_witness :
  let hp := sockets after_first_cycle in
  (exists hp2,
      directPath stale 0 hp = (Ok None, hp2) /\
      option_map rootContextId (nth_error hp2 0) = Some None) /\
  (exists hp1,
      directPath editor 0 hp = (Ok None, hp1) /\
      option_map rootContextId (nth_error hp1 0) = Some (Some 1)).
Proof.
  cbv zeta.
  destruct (nth_error (sockets after_first_cycle) 0) as [s|] eqn:Hs;
    [|vm_compute in Hs; discriminate].
  assert (Hroot : rootContextId s = Some 1)
    by (vm_compute in Hs; injection Hs as <-; reflexivity).
  assert (Hr : remembered (rootContextId s) = Some 1) by (rewrite Hroot; reflexivity).
  split.
  - destruct (direct_path_clears_context_on_throw stale 0 _ s 1 Hs Hr) as [A _].
    destruct (evaluate stale 0 METADATA_SCRIPT (Some 1) (sockets after_first_cycle))
      as [[res| | |] hp1] eqn:He; try (vm_compute in He; discriminate).
    destruct (A e hp1 eq_refl) as [hp2 [B [C _]]].
    exists hp2. split; assumption.
  - destruct (direct_path_clears_context_on_throw editor 0 _ s 1 Hs Hr) as [_ A].
    destruct (evaluate editor 0 METADATA_SCRIPT (Some 1) (sockets after_first_cycle))
      as [[res| | |] hp1] eqn:He; try (vm_compute in He; discriminate).
    assert (Hf : found_value res = None)
      by (vm_compute in He; injection He as <- _; reflexivity).
    destruct (A res hp1 eq_refl Hf) as [B [C _]].
    exists hp1. split; [exact B|]. now rewrite C, Hroot.
Defined.

(** ** The discovery cycle *)

(** C3 fails on the code. The editor's page loses its cascade element after
    the first cycle, so in the second cycle the refresh on the still-open
    first socket finds nothing; discover opens a second socket to the same
    address, installs the entry built on it, and closes nothing: the cleanup
    only closes the sockets of identities that left the registry. Both
    sockets of the one identity are open afterwards. *)
Theorem refresh_failure_leaves_two_live_sessions :
  let k := hashString workbench_address in
  fst (discover editor 8 started) = Ok tt /\
  fst (discover editor 8 after_first_cycle) = Ok tt /\
  live_sessions k after_first_cycle = [0%nat] /\
  live_sessions k after_second_cycle = [0%nat; 1%nat] /\
  map (fun e => (fst e, cdp (snd e))) (cascades after_second_cycle) = [(k, 1%nat)] /\
  ~ at_most_one_live after_second_cycle.
Proof.
  cbv zeta. repeat split; try (vm_compute; reflexivity).
  intros H. specialize (H (hashString workbench_address)).
  vm_compute in H. lia.
Qed.



Lemma collectTargets_throws env ports port :
  In port ports -> listTargets env port = None -> collectTargets env ports = None.
Proof.
  induction ports as [|q ports IH]; intros Hin Hnone; [destruct Hin|]. simpl.
  destruct Hin as [->|Hin].
  - now rewrite Hnone.
  - rewrite (IH Hin Hnone). now destruct (listTargets env q).
Qed.

(** Any listener whose body parses to something that is not an array ends
    the cycle with a TypeError before a target is visited. *)
Lemma non_list_payload_aborts_cycle env port parsed fuel w :
  In port PORTS -> http env port = Body (Some parsed) ->
  (forall items, parsed <> JArr items) ->
  discover env fuel w = (Throw TypeError, w).
Proof.
  intros Hin Hbody Hshape. unfold discover.
  rewrite (collectTargets_throws env PORTS port Hin); [reflexivity|].
  unfold listTargets, getJson. rewrite Hbody.
  destruct parsed; try reflexivity. now contradiction (Hshape items).
Qed.

(** C7 fails on the code. A listener that answers /json/list with a JSON
    object passes JSON.parse, so getJson hands the object to discover, where
    list.filter is not a function: the callback throws, Promise.all rejects
    and the cycle ends there, whatever the other listeners sent, with the
    registry as it was. *)
Theorem json_object_listing_aborts_cycle fuel w :
  getJson stranger 9000 = JObj [("error", JStr (units "not found"))] /\
  listTargets stranger 9000 = None /\
  discover stranger fuel w = (Throw TypeError, w).
Proof.
  repeat split.
Qed.

Section Quiet.

Variable n : nat.
Variable b : list Json.





Lemma quiet_weaken {A} (m : M World A) (Q R : A -> Prop) :
  quiet n b m Q -> (forall a, Q a -> R a) -> quiet n b m R.
Proof.
  intros Hm HQR w Hw. destruct (Hm w Hw) as [H1 H2]. split; auto.
Qed.




End Quiet.


Section QuietCycle.

Variable env : Env.
Variable fuel : nat.
Variable n : nat.
Variable b : list Json.







End QuietCycle.



(** ** The snapshot poller *)

Lemma map_get_set_same k c m : map_get k (map_set k c m) = Some c.
Proof.
  induction m as [|[k' c'] m IH]; simpl.
  - now rewrite String.eqb_refl.
  - destruct (String.eqb k k') eqn:E; simpl; [now rewrite String.eqb_refl | now rewrite E].
Qed.

Lemma hash_differs_false hash stored :
  hash_differs hash stored = false <-> stored = Some hash.
Proof.
  unfold hash_differs. destruct stored as [h|]; split; intros H; try discriminate.
  - apply negb_false_iff, String.eqb_eq in H. now subst.
  - inversion H; subst. now rewrite String.eqb_refl.
Qed.

(** One run of the callback on a successful capture with a string html:
    what it stores and what it broadcasts is decided by the hash of the html
    against the stored hash. *)
Lemma sample_captured env w k c snap html hp :
  map_get k (cascades w) = Some c ->
  captureHTML env (cdp c) (sockets w) = (Ok (Some snap), hp) ->
  prop "html" snap = Some (JStr html) ->
  sample env k w =
  if hash_differs (hashString html) (snapshotHash c)
  then mkWorld hp (map_set k (set_snapshot snap (hashString html) c) (cascades w))
               (broadcasts w ++ [snapshot_update (id c)])
  else mkWorld hp (cascades w) (broadcasts w).
Proof.
  intros Hk Hc Hh. unfold sample. rewrite Hk.
  unfold try_catch, bind at 1, lift. rewrite Hc, Hh. simpl.
  destruct (hash_differs (hashString html) (snapshotHash c)); reflexivity.
Qed.

(** After such a run the entry holds the hash of the captured html. *)
Lemma sample_stores_hash env w k c snap html hp :
  map_get k (cascades w) = Some c ->
  captureHTML env (cdp c) (sockets w) = (Ok (Some snap), hp) ->
  prop "html" snap = Some (JStr html) ->
  exists c1,
    map_get k (cascades (sample env k w)) = Some c1 /\
    cdp c1 = cdp c /\ id c1 = id c /\
    snapshotHash c1 = Some (hashString html) /\
    (hash_differs (hashString html) (snapshotHash c) = true -> snapshot c1 = Some snap) /\
    (hash_differs (hashString html) (snapshotHash c) = false -> c1 = c).
Proof.
  intros Hk Hc Hh. rewrite (sample_captured env w k c snap html hp Hk Hc Hh).
  destruct (hash_differs (hashString html) (snapshotHash c)) eqn:Hd; simpl.
  - exists (set_snapshot snap (hashString html) c). rewrite map_get_set_same.
    repeat split; auto; discriminate.
  - exists c. apply hash_differs_false in Hd. repeat split; auto; discriminate.
Qed.

(** A second capture with the same html, whatever else it carries, changes
    neither the registry nor the broadcasts. *)
Lemma sample_again env w k c snap1 snap2 html hp1 hp2 :
  map_get k (cascades w) = Some c ->
  captureHTML env (cdp c) (sockets w) = (Ok (Some snap1), hp1) ->
  prop "html" snap1 = Some (JStr html) ->
  captureHTML env (cdp c) (sockets (sample env k w)) = (Ok (Some snap2), hp2) ->
  prop "html" snap2 = Some (JStr html) ->
  cascades (sample env k (sample env k w)) = cascades (sample env k w) /\
  broadcasts (sample env k (sample env k w)) = broadcasts (sample env k w).
Proof.
  intros Hk Hc1 Hh1 Hc2 Hh2.
  destruct (sample_stores_hash env w k c snap1 html hp1 Hk Hc1 Hh1)
    as [c1 [Hk1 [Hcdp [_ [Hhash _]]]]].
  rewrite <- Hcdp in Hc2.
  rewrite (sample_captured env _ k c1 snap2 html hp2 Hk1 Hc2 Hh2), Hhash.
  assert (Hd : hash_differs (hashString html) (Some (hashString html)) = false)
    by now apply hash_differs_false.
  rewrite Hd. split; reflexivity.
Qed.

(** C4 as the specification states it fails: the entry of the editor holds
    the fingerprint of the payload after the first sampling round; the next
    two rounds capture that same payload and broadcast nothing, not one
    event. *)
Lemma same_payload_twice_can_emit_nothing :
  let w := after_first_sample in
  let payload := captured (units "rgb(255, 255, 255)") in
  map (fun e => cdp (snd e)) (cascades w) = [1%nat] /\
  fst (captureHTML editor 1 (sockets w)) = Ok (Some payload) /\
  fst (captureHTML editor 1 (sockets (updateSnapshots editor w))) = Ok (Some payload) /\
  broadcasts (updateSnapshots editor (updateSnapshots editor w)) = broadcasts w /\
  cascades (updateSnapshots editor (updateSnapshots editor w)) = cascades w.
Proof.
  vm_compute. repeat split.
Qed.

(** C4, amended. For an entry of the registry, the same payload captured in
    two consecutive sampling rounds is published once when the hash of its
    html differs from the hash the entry stored before the first round, as
    it does for a new entry, which stores none: the first round stores the
    payload and its hash and broadcasts one snapshot_update, the second
    nothing. When the entry already stored that hash, neither round stores
    or broadcasts anything. So a round broadcasts, and replaces the stored
    snapshot and hash, exactly when the new hash differs from the stored
    one. *)
Theorem same_payload_published_at_most_once env w k c snap html hp1 hp2 :
  map_get k (cascades w) = Some c ->
  captureHTML env (cdp c) (sockets w) = (Ok (Some snap), hp1) ->
  prop "html" snap = Some (JStr html) ->
  captureHTML env (cdp c) (sockets (sample env k w)) = (Ok (Some snap), hp2) ->
  let w1 := sample env k w in
  let w2 := sample env k w1 in
  (snapshotHash c = None -> hash_differs (hashString html) (snapshotHash c) = true) /\
  (hash_differs (hashString html) (snapshotHash c) = true ->
   cascades w1 = map_set k (set_snapshot snap (hashString html) c) (cascades w) /\
   broadcasts w1 = broadcasts w ++ [snapshot_update (id c)] /\
   cascades w2 = cascades w1 /\
   broadcasts w2 = broadcasts w ++ [snapshot_update (id c)]) /\
  (hash_differs (hashString html) (snapshotHash c) = false ->
   cascades w1 = cascades w /\ broadcasts w1 = broadcasts w /\
   cascades w2 = cascades w /\ broadcasts w2 = broadcasts w).
Proof.
  intros Hk Hc1 Hh Hc2 w1 w2.
  destruct (sample_again env w k c snap snap html hp1 hp2 Hk Hc1 Hh Hc2 Hh) as [Hcs Hbs].
  fold w1 in Hcs, Hbs. fold w2 in Hcs, Hbs.
  pose proof (sample_captured env w k c snap html hp1 Hk Hc1 Hh) as H1. fold w1 in H1.
  split; [intros ->; reflexivity|]. split; intros Hd; rewrite Hd in H1.
  - rewrite Hcs, Hbs, H1. simpl. repeat split.
  - rewrite Hcs, Hbs, H1. simpl. repeat split.
Qed.

Lemma same_payload_published_at_most_once_witness :
  let k := hashString workbench_address in
  let w := after_second_cycle in
  let w1 := sample editor k w in
  let w2 := sample editor k w1 in
  broadcasts w1 = broadcasts w ++ [snapshot_update k] /\
  cascades w2 = cascades w1 /\
  broadcasts w2 = broadcasts w ++ [snapshot_update k].
Proof.
  cbv zeta.
  destruct (map_get (hashString workbench_address) (cascades after_second_cycle))
    as [c|] eqn:Hk; [|vm_compute in Hk; discriminate].
  assert (Hc : c = mkCascade (hashString workbench_address) 1 (metadata c) None (css c) None)
    by (vm_compute in Hk; injection Hk as <-; reflexivity).
  assert (Hcdp : cdp c = 1%nat) by (rewrite Hc; reflexivity).
  assert (Hid : id c = hashString workbench_address) by (rewrite Hc; reflexivity).
  assert (Hnone : snapshotHash c = None) by (rewrite Hc; reflexivity).
  destruct (captureHTML editor (cdp c) (sockets after_second_cycle)) as [o1 hp1] eqn:H1.
  assert (Ho1 : o1 = Ok (Some (captured (units "rgb(255, 255, 255)"))))
    by (rewrite Hcdp in H1; vm_compute in H1; injection H1 as <- _; reflexivity).
  subst o1.
  destruct (captureHTML editor (cdp c)
              (sockets (sample editor (hashString workbench_address) after_second_cycle)))
    as [o2 hp2] eqn:H2.
  assert (Ho2 : o2 = Ok (Some (captured (units "rgb(255, 255, 255)"))))
    by (rewrite Hcdp in H2; vm_compute in H2; injection H2 as <- _; reflexivity).
  subst o2.
  destruct (same_payload_published_at_most_once editor after_second_cycle
              (hashString workbench_address) c
              (captured (units "rgb(255, 255, 255)"))
              (units "<div id=cascade>hello</div>") hp1 hp2 Hk H1 eq_refl H2)
    as [Hnew [Hdiff _]].
  destruct (Hdiff (Hnew Hnone)) as [_ [A [B C]]].
  rewrite Hid in A, C. exact (conj A (conj B C)).
Defined.

(** C10. The fingerprint of a capture is the hash of its html alone: after a
    round that captured a payload, the entry stores the hash of that
    payload's html, and a following round whose capture has the same html
    stores no new snapshot and broadcasts nothing, whatever bodyBg and
    bodyColor the new capture carries. *)
Theorem style_only_change_is_not_published env w k c snap1 snap2 html hp1 hp2 :
  map_get k (cascades w) = Some c ->
  captureHTML env (cdp c) (sockets w) = (Ok (Some snap1), hp1) ->
  prop "html" snap1 = Some (JStr html) ->
  captureHTML env (cdp c) (sockets (sample env k w)) = (Ok (Some snap2), hp2) ->
  prop "html" snap2 = Some (JStr html) ->
  (exists c1,
      map_get k (cascades (sample env k w)) = Some c1 /\
      snapshotHash c1 = Some (hashString html)) /\
  cascades (sample env k (sample env k w)) = cascades (sample env k w) /\
  broadcasts (sample env k (sample env k w)) = broadcasts (sample env k w).
Proof.
  intros Hk Hc1 Hh1 Hc2 Hh2. split.
  - destruct (sample_stores_hash env w k c snap1 html hp1 Hk Hc1 Hh1)
      as [c1 [Hk1 [_ [_ [Hhash _]]]]].
    exists c1. split; assumption.
  - exact (sample_again env w k c snap1 snap2 html hp1 hp2 Hk Hc1 Hh1 Hc2 Hh2).
Qed.

Lemma style_only_change_is_not_published_witness :
  let k := hashString workbench_address in
  let w := after_second_cycle in
  let w1 := sample restyled k w in
  let w2 := sample restyled k w1 in
  fst (captureHTML restyled 1 (sockets w)) = Ok (Some (captured (units "rgb(255, 255, 255)"))) /\
  fst (captureHTML restyled 1 (sockets w1)) = Ok (Some (captured (units "rgb(0, 0, 0)"))) /\
  cascades w2 = cascades w1 /\
  broadcasts w2 = broadcasts w1 /\
  option_map snapshot (map_get k (cascades w2)) =
    Some (Some (captured (units "rgb(255, 255, 255)"))).
Proof.
  cbv zeta.
  destruct (map_get (hashString workbench_address) (cascades after_second_cycle))
    as [c|] eqn:Hk; [|vm_compute in Hk; discriminate].
  assert (Hcdp : cdp c = 1%nat) by (vm_compute in Hk; injection Hk as <-; reflexivity).
  destruct (captureHTML restyled (cdp c) (sockets after_second_cycle)) as [o1 hp1] eqn:H1.
  assert (Ho1 : o1 = Ok (Some (captured (units "rgb(255, 255, 255)"))))
    by (rewrite Hcdp in H1; vm_compute in H1; injection H1 as <- _; reflexivity).
  subst o1.
  destruct (captureHTML restyled (cdp c)
              (sockets (sample restyled (hashString workbench_address) after_second_cycle)))
    as [o2 hp2] eqn:H2.
  assert (Ho2 : o2 = Ok (Some (captured (units "rgb(0, 0, 0)"))))
    by (rewrite Hcdp in H2; vm_compute in H2; injection H2 as <- _; reflexivity).
  subst o2.
  destruct (style_only_change_is_not_published restyled after_second_cycle
              (hashString workbench_address) c
              (captured (units "rgb(255, 255, 255)")) (captured (units "rgb(0, 0, 0)"))
              (units "<div id=cascade>hello</div>") hp1 hp2 Hk H1 eq_refl H2 eq_refl)
    as [_ [A B]].
  rewrite Hcdp in H1, H2.
  split; [rewrite H1; reflexivity|]. split; [rewrite H2; reflexivity|].
  split; [exact A|]. split; [exact B|].
  vm_compute. reflexivity.
Defined.
